(** * DR16 remote-control receiver: frame layout, validation and acquisition loop

    Shallow embedding of [src/DR16.hpp].

    - The packed struct [DR16::Data] is a record of field values; its
      object representation is described by the member list of the struct
      declaration, laid out the way GCC lays out a packed struct on a
      little-endian target (members, bit-fields included, are allocated
      one after the other starting with the least significant bit of the
      first byte).
    - Member functions take and return the object ([DR16]) explicitly.
    - [Thread_Dr16] is an interaction tree over the calls made to the
      collaborators (UART read port, thread sleep, topic). *)

From Stdlib Require Import ZArith List Lia Bool.
From coqutil Require Import Byte Word.LittleEndianList.
From ITree Require Import ITree.
Import ListNotations.
Import ITreeNotations.
Local Open Scope Z_scope.
Local Open Scope itree_scope.

(* ===================================================================== *)
(** ** Integer types of the source *)
(* ===================================================================== *)

(** Conversion to an unsigned type of [n] bits: reduction modulo [2^n]. *)
Definition as_unsigned (n : Z) (v : Z) : Z := v mod 2 ^ n.

(** Conversion to a signed two's-complement type of [n] bits. *)
Definition as_signed (n : Z) (v : Z) : Z :=
  (v + 2 ^ (n - 1)) mod 2 ^ n - 2 ^ (n - 1).

Definition as_uint8 : Z -> Z := as_unsigned 8.
Definition as_uint32 : Z -> Z := as_unsigned 32.

(* ===================================================================== *)
(** ** Constants *)
(* ===================================================================== *)

Definition DR16_CH_VALUE_MIN : Z := 364.
Definition DR16_CH_VALUE_MID : Z := 1024.
Definition DR16_CH_VALUE_MAX : Z := 1684.

(* ===================================================================== *)
(** ** Enumerations *)
(* ===================================================================== *)

Inductive SwitchPos : Type :=
| DR16_SW_L_POS_TOP
| DR16_SW_L_POS_BOT
| DR16_SW_L_POS_MID
| DR16_SW_R_POS_TOP
| DR16_SW_R_POS_BOT
| DR16_SW_R_POS_MID
| DR16_SW_POS_NUM.

(** Enumerator values of [SwitchPos]; [DR16_SW_POS_NUM] has no
    initializer and takes the value after [DR16_SW_R_POS_MID]. *)
Definition SwitchPos_value (p : SwitchPos) : Z :=
  match p with
  | DR16_SW_L_POS_TOP => 0x00
  | DR16_SW_L_POS_BOT => 0x01
  | DR16_SW_L_POS_MID => 0x02
  | DR16_SW_R_POS_TOP => 0x03
  | DR16_SW_R_POS_BOT => 0x04
  | DR16_SW_R_POS_MID => 0x05
  | DR16_SW_POS_NUM => 0x05 + 1
  end.

Inductive Key : Type :=
| KEY_W
| KEY_S
| KEY_A
| KEY_D
| KEY_SHIFT
| KEY_CTRL
| KEY_Q
| KEY_E
| KEY_R
| KEY_F
| KEY_G
| KEY_Z
| KEY_X
| KEY_C
| KEY_V
| KEY_B
| KEY_L_PRESS
| KEY_R_PRESS
| KEY_L_RELEASE
| KEY_R_RELEASE
| KEY_NUM.

(** The enumerators of [Key] in declaration order. *)
Definition Key_enumerators : list Key :=
  [ KEY_W; KEY_S; KEY_A; KEY_D; KEY_SHIFT; KEY_CTRL; KEY_Q; KEY_E; KEY_R;
    KEY_F; KEY_G; KEY_Z; KEY_X; KEY_C; KEY_V; KEY_B; KEY_L_PRESS;
    KEY_R_PRESS; KEY_L_RELEASE; KEY_R_RELEASE; KEY_NUM ].

Definition Key_eqb (a b : Key) : bool :=
  match a, b with
  | KEY_W, KEY_W | KEY_S, KEY_S | KEY_A, KEY_A | KEY_D, KEY_D
  | KEY_SHIFT, KEY_SHIFT | KEY_CTRL, KEY_CTRL | KEY_Q, KEY_Q
  | KEY_E, KEY_E | KEY_R, KEY_R | KEY_F, KEY_F | KEY_G, KEY_G
  | KEY_Z, KEY_Z | KEY_X, KEY_X | KEY_C, KEY_C | KEY_V, KEY_V
  | KEY_B, KEY_B | KEY_L_PRESS, KEY_L_PRESS | KEY_R_PRESS, KEY_R_PRESS
  | KEY_L_RELEASE, KEY_L_RELEASE | KEY_R_RELEASE, KEY_R_RELEASE
  | KEY_NUM, KEY_NUM => true
  | _, _ => false
  end.

(** Position of an enumerator in a declaration list. *)
Fixpoint position (k : Key) (l : list Key) : Z :=
  match l with
  | [] => 0
  | k' :: l' => if Key_eqb k' k then 0 else 1 + position k l'
  end.

(** Enumerator values of [Key]: [KEY_W] is initialised with
    [DR16_SW_POS_NUM], every later enumerator is its predecessor plus
    one. *)
Definition Key_value (k : Key) : Z :=
  as_uint8 (SwitchPos_value DR16_SW_POS_NUM) + position k Key_enumerators.

(** The keys and pointer-button events proper: every enumerator of [Key]
    except the closing [KEY_NUM]. *)
Definition base_keys : list Key := removelast Key_enumerators.

Definition base_key_count : Z := Z.of_nat (length base_keys).

(** [constexpr uint32_t ShiftWith(Key key)]: the operands are promoted
    to [int], the sum is converted to [uint32_t]. *)
Definition ShiftWith (key : Key) : Z :=
  as_uint32 (as_uint8 (Key_value key) + 1 * as_uint8 (Key_value KEY_NUM)).

Definition CtrlWith (key : Key) : Z :=
  as_uint32 (as_uint8 (Key_value key) + 2 * as_uint8 (Key_value KEY_NUM)).

Definition ShiftCtrlWith (key : Key) : Z :=
  as_uint32 (as_uint8 (Key_value key) + 3 * as_uint8 (Key_value KEY_NUM)).

(* ===================================================================== *)
(** ** The packed struct [Data] *)
(* ===================================================================== *)

(** Declared types of the members. *)
Inductive ctype : Type := uint8_t | uint16_t | int16_t.

Definition ctype_bits (t : ctype) : Z :=
  match t with
  | uint8_t => 8
  | uint16_t => 16
  | int16_t => 16
  end.

Definition ctype_signed (t : ctype) : bool :=
  match t with
  | int16_t => true
  | uint8_t | uint16_t => false
  end.

(** Names of the members. *)
Inductive member : Type :=
| m_ch_r_x | m_ch_r_y | m_ch_l_x | m_ch_l_y
| m_sw_r | m_sw_l
| m_x | m_y | m_z
| m_press_l | m_press_r
| m_key | m_res.

Definition member_eqb (a b : member) : bool :=
  match a, b with
  | m_ch_r_x, m_ch_r_x | m_ch_r_y, m_ch_r_y | m_ch_l_x, m_ch_l_x
  | m_ch_l_y, m_ch_l_y | m_sw_r, m_sw_r | m_sw_l, m_sw_l
  | m_x, m_x | m_y, m_y | m_z, m_z
  | m_press_l, m_press_l | m_press_r, m_press_r
  | m_key, m_key | m_res, m_res => true
  | _, _ => false
  end.

(** One member declaration: [type name : bits;] or [type name;]. *)
Record decl : Type := Decl {
  decl_type : ctype;
  decl_name : member;
  decl_bitfield : option Z
}.

(** Number of bits a member occupies. *)
Definition decl_width (d : decl) : Z :=
  match decl_bitfield d with
  | Some n => n
  | None => ctype_bits (decl_type d)
  end.

(** The member declarations of [Data], in the order of the struct. *)
Definition Data_decls : list decl :=
  [ Decl uint16_t m_ch_r_x (Some 11);
    Decl uint16_t m_ch_r_y (Some 11);
    Decl uint16_t m_ch_l_x (Some 11);
    Decl uint16_t m_ch_l_y (Some 11);
    Decl uint8_t m_sw_r (Some 2);
    Decl uint8_t m_sw_l (Some 2);
    Decl int16_t m_x None;
    Decl int16_t m_y None;
    Decl int16_t m_z None;
    Decl uint8_t m_press_l None;
    Decl uint8_t m_press_r None;
    Decl uint16_t m_key None;
    Decl uint16_t m_res None ].

(** Packed allocation: a member starts at the bit where its predecessor
    ends; the first member starts at bit 0. *)
Fixpoint layout_from (off : Z) (ds : list decl) : list (decl * Z) :=
  match ds with
  | [] => []
  | d :: ds' => (d, off) :: layout_from (off + decl_width d) ds'
  end.

Definition Data_layout : list (decl * Z) := layout_from 0 Data_decls.

(** Total number of bits of the members. *)
Definition Data_bits : Z :=
  fold_right (fun d acc => decl_width d + acc) 0 Data_decls.

(** [sizeof(Data)] in bytes: the member bits rounded up to whole bytes. *)
Definition sizeof_Data : nat := Z.to_nat ((Data_bits + 7) / 8).

Fixpoint find_member (m : member) (l : list (decl * Z)) : option (decl * Z) :=
  match l with
  | [] => None
  | (d, off) :: l' =>
      if member_eqb (decl_name d) m then Some (d, off) else find_member m l'
  end.

Definition bit_offset (m : member) : Z :=
  match find_member m Data_layout with
  | Some (_, off) => off
  | None => 0
  end.

Definition bit_width (m : member) : Z :=
  match find_member m Data_layout with
  | Some (d, _) => decl_width d
  | None => 0
  end.

Definition is_signed (m : member) : bool :=
  match find_member m Data_layout with
  | Some (d, _) => ctype_signed (decl_type d)
  | None => false
  end.

(** The bits [off .. off+len-1] of [w], as an unsigned number. *)
Definition bits (w off len : Z) : Z := Z.land (Z.shiftr w off) (Z.ones len).

(** Value of member [m] read from an object whose bytes, taken in
    little-endian order, form the number [w]. *)
Definition read_member (w : Z) (m : member) : Z :=
  let raw := bits w (bit_offset m) (bit_width m) in
  if is_signed m then as_signed (bit_width m) raw else raw.

(** The object [Data], as the values of its members. *)
Record Data : Type := mkData {
  ch_r_x : Z;
  ch_r_y : Z;
  ch_l_x : Z;
  ch_l_y : Z;
  sw_r : Z;
  sw_l : Z;
  x : Z;
  y : Z;
  z : Z;
  press_l : Z;
  press_r : Z;
  key : Z;
  res : Z
}.

(** Projection of [Data] by member name. *)
Definition member_value (d : Data) (m : member) : Z :=
  match m with
  | m_ch_r_x => ch_r_x d | m_ch_r_y => ch_r_y d
  | m_ch_l_x => ch_l_x d | m_ch_l_y => ch_l_y d
  | m_sw_r => sw_r d | m_sw_l => sw_l d
  | m_x => x d | m_y => y d | m_z => z d
  | m_press_l => press_l d | m_press_r => press_r d
  | m_key => key d | m_res => res d
  end.

(** The values a member can hold: its declared width and signedness. *)
Definition member_range (m : member) (v : Z) : Prop :=
  if is_signed m
  then - 2 ^ (bit_width m - 1) <= v < 2 ^ (bit_width m - 1)
  else 0 <= v < 2 ^ bit_width m.

Definition Data_wf (d : Data) : Prop :=
  forall m, member_range m (member_value d m).

(** The object a block of received bytes denotes once it has been
    stored over [data_] (what [uart_->Read(data_, op)] leaves behind):
    every member is read off its bits. *)
Definition Data_of_bytes (bs : list byte) : Data :=
  let w := le_combine bs in
  {| ch_r_x := read_member w m_ch_r_x;
     ch_r_y := read_member w m_ch_r_y;
     ch_l_x := read_member w m_ch_l_x;
     ch_l_y := read_member w m_ch_l_y;
     sw_r := read_member w m_sw_r;
     sw_l := read_member w m_sw_l;
     x := read_member w m_x;
     y := read_member w m_y;
     z := read_member w m_z;
     press_l := read_member w m_press_l;
     press_r := read_member w m_press_r;
     key := read_member w m_key;
     res := read_member w m_res |}.

(** Modelled from the spec: the encoder of a frame into the wire layout.
    The source only receives frames and has no encoder; this one follows
    the spec's shift/mask description: every field, truncated to its
    width, is placed at its bit offset, and the result is cut into
    [sizeof_Data] bytes, least significant first. *)
Definition place (d : Data) (m : member) : Z :=
  Z.shiftl (as_unsigned (bit_width m) (member_value d m)) (bit_offset m).

Definition encode_bits (d : Data) : Z :=
  fold_right (fun dc acc => Z.lor (place d (decl_name dc)) acc) 0 Data_decls.

Definition encode (d : Data) : list byte :=
  le_split sizeof_Data (encode_bits d).

(* ===================================================================== *)
(** ** The debug view (built with [LIBXR_DEBUG_BUILD] only) *)
(* ===================================================================== *)

Module DataView.
Record t : Type := mk {
  ch_r_x : Z;
  ch_r_y : Z;
  ch_l_x : Z;
  ch_l_y : Z;
  sw_r : Z;
  sw_l : Z;
  x : Z;
  y : Z;
  z : Z;
  press_l : Z;
  press_r : Z;
  key : Z;
  res : Z
}.
End DataView.

(** [void DataviewToData(DataView &data_view, Data &data)]: both
    arguments are references; the view is overwritten member by member,
    the data is only read. *)
Definition DataviewToData (data_view : DataView.t) (data : Data)
  : DataView.t * Data :=
  ({| DataView.ch_r_x := ch_r_x data;
      DataView.ch_r_y := ch_r_y data;
      DataView.ch_l_x := ch_l_x data;
      DataView.ch_l_y := ch_l_y data;
      DataView.sw_r := sw_r data;
      DataView.sw_l := sw_l data;
      DataView.x := x data;
      DataView.y := y data;
      DataView.z := z data;
      DataView.press_l := press_l data;
      DataView.press_r := press_r data;
      DataView.key := key data;
      DataView.res := res data |}, data).

(* ===================================================================== *)
(** ** The object and its validator *)
(* ===================================================================== *)

(** The data members of [DR16] that the object owns. The remaining
    members ([uart_], [thread_uart_], [sem], [op], [cmd_tp_]) are handles
    of collaborators; calls through them are the events below. *)
Record DR16 : Type := mkDR16 {
  data_ : Data;
  data_view_ : DataView.t
}.

(** [bool DataCorrupted()]: a member function, not declared [const]; it
    takes the object and returns its result together with the object it
    leaves behind. The bit-field operands are promoted to [int] and
    compared with the [unsigned] constants; both conversions keep the
    value of a channel, which is never negative. *)
Definition DataCorrupted (this : DR16) : bool * DR16 :=
  if (ch_r_x (data_ this) <? DR16_CH_VALUE_MIN) ||
     (ch_r_x (data_ this) >? DR16_CH_VALUE_MAX) then (true, this)
  else if (ch_r_y (data_ this) <? DR16_CH_VALUE_MIN) ||
          (ch_r_y (data_ this) >? DR16_CH_VALUE_MAX) then (true, this)
  else if (ch_l_x (data_ this) <? DR16_CH_VALUE_MIN) ||
          (ch_l_x (data_ this) >? DR16_CH_VALUE_MAX) then (true, this)
  else if (ch_l_y (data_ this) <? DR16_CH_VALUE_MIN) ||
          (ch_l_y (data_ this) >? DR16_CH_VALUE_MAX) then (true, this)
  else if sw_l (data_ this) =? 0 then (true, this)
  else if sw_r (data_ this) =? 0 then (true, this)
  else (false, this).

(* ===================================================================== *)
(** ** The acquisition thread *)
(* ===================================================================== *)

(** Calls made to the collaborators. *)
Variant dr16E : Type -> Type :=
| read_port_Reset : dr16E unit
    (** [uart_->read_port_->Reset()] *)
| uart_Read (size : nat) : dr16E (list byte)
    (** [uart_->Read(data_, op)]: blocks until a block of [size] bytes
        has been received and answers with that block *)
| Thread_Sleep (milliseconds : Z) : dr16E unit
    (** [LibXR::Thread::Sleep(milliseconds)] *)
| cmd_tp_Publish (data : Data) : dr16E unit.
    (** [cmd_tp_.Publish(data_)] *)

(** The body of [while (true)]; [inl] is the way back to the loop head,
    and the body has no [break] or [return]. *)
Definition Thread_Dr16_body (LIBXR_DEBUG_BUILD : bool) (dr16 : DR16)
  : itree dr16E (DR16 + unit) :=
  block <- ITree.trigger (uart_Read sizeof_Data) ;;
  let dr16 := {| data_ := Data_of_bytes block;
                 data_view_ := data_view_ dr16 |} in
  let (corrupted, dr16) := DataCorrupted dr16 in
  if corrupted then
    ITree.trigger read_port_Reset ;;
    ITree.trigger (Thread_Sleep 3) ;;
    Ret (inl dr16)
  else
    let (data_view, data) :=
      if LIBXR_DEBUG_BUILD
      then DataviewToData (data_view_ dr16) (data_ dr16)
      else (data_view_ dr16, data_ dr16) in
    let dr16 := {| data_ := data; data_view_ := data_view |} in
    ITree.trigger (cmd_tp_Publish (data_ dr16)) ;;
    Ret (inl dr16).

(** [static void Thread_Dr16(DR16 *dr16)] *)
Definition Thread_Dr16 (LIBXR_DEBUG_BUILD : bool) (dr16 : DR16)
  : itree dr16E unit :=
  ITree.trigger read_port_Reset ;;
  ITree.iter (Thread_Dr16_body LIBXR_DEBUG_BUILD) dr16.

(* ===================================================================== *)
(** ** Running the thread against a transport *)
(* ===================================================================== *)

(** What an observer of the collaborators sees. *)
Variant call : Type :=
| Reset_called
| Read_returned (size : nat) (block : list byte)
| Sleep_called (milliseconds : Z)
| Publish_called (data : Data).

(** Where a run stands when it is cut off. *)
Variant status : Type :=
| Returned          (** the thread function has returned *)
| AwaitingFrame     (** blocked in [uart_Read]: no block left to deliver *)
| Running.          (** still running when the step budget ran out *)

(** Run a tree for at most [fuel] steps; the transport delivers the
    blocks of [rx], one per read, and every other call returns at once. *)
Fixpoint run {R : Type} (fuel : nat) (rx : list (list byte))
  (t : itree dr16E R) : list call * status :=
  match fuel with
  | O => ([], Running)
  | S fuel' =>
      match observe t with
      | RetF _ => ([], Returned)
      | TauF t' => run fuel' rx t'
      | VisF e k =>
          match e in dr16E X return (X -> itree dr16E R) -> list call * status with
          | read_port_Reset => fun k =>
              let (calls, st) := run fuel' rx (k tt) in
              (Reset_called :: calls, st)
          | uart_Read size => fun k =>
              match rx with
              | [] => ([], AwaitingFrame)
              | block :: rx' =>
                  let (calls, st) := run fuel' rx' (k block) in
                  (Read_returned size block :: calls, st)
              end
          | Thread_Sleep ms => fun k =>
              let (calls, st) := run fuel' rx (k tt) in
              (Sleep_called ms :: calls, st)
          | cmd_tp_Publish data => fun k =>
              let (calls, st) := run fuel' rx (k tt) in
              (Publish_called data :: calls, st)
          end k
      end
  end.

(** The frames handed to the topic, in order. *)
Definition published (calls : list call) : list Data :=
  flat_map (fun c => match c with Publish_called d => [d] | _ => [] end) calls.

(** The blocks the reads returned, in order. *)
Definition received (calls : list call) : list (list byte) :=
  flat_map (fun c => match c with Read_returned _ b => [b] | _ => [] end)
           calls.

(** A view with every member zero, for objects whose view does not
    matter. *)
Definition zero_view : DataView.t :=
  DataView.mk 0 0 0 0 0 0 0 0 0 0 0 0 0.

(** The verdict of the validator on a frame: [DataCorrupted] called on an
    object holding it. *)
Definition frame_corrupted (d : Data) : bool :=
  fst (DataCorrupted {| data_ := d; data_view_ := zero_view |}).

(** The object at the end of an iteration that published. *)
Definition after_valid (LIBXR_DEBUG_BUILD : bool) (this : DR16) : DR16 :=
  if LIBXR_DEBUG_BUILD
  then {| data_ := snd (DataviewToData (data_view_ this) (data_ this));
          data_view_ := fst (DataviewToData (data_view_ this) (data_ this)) |}
  else this.

(** The calls expected of the iteration that receives [block]. *)
Definition iteration_calls (block : list byte) : list call :=
  Read_returned sizeof_Data block ::
  (if frame_corrupted (Data_of_bytes block)
   then [Reset_called; Sleep_called 3]
   else [Publish_called (Data_of_bytes block)]).

(* ===================================================================== *)
(** ** Frames and blocks used in the statements *)
(* ===================================================================== *)

(** A frame with all four channels centred and both switches at 1; the
    pointer, button, key and reserved members are free. *)
Definition centred (vx vy vz pl pr k r : Z) : Data :=
  {| ch_r_x := DR16_CH_VALUE_MID; ch_r_y := DR16_CH_VALUE_MID;
     ch_l_x := DR16_CH_VALUE_MID; ch_l_y := DR16_CH_VALUE_MID;
     sw_r := 1; sw_l := 1;
     x := vx; y := vy; z := vz;
     press_l := pl; press_r := pr; key := k; res := r |}.

Definition with_ch_r_x (v : Z) (d : Data) : Data :=
  {| ch_r_x := v; ch_r_y := ch_r_y d; ch_l_x := ch_l_x d;
     ch_l_y := ch_l_y d; sw_r := sw_r d; sw_l := sw_l d;
     x := x d; y := y d; z := z d;
     press_l := press_l d; press_r := press_r d; key := key d;
     res := res d |}.

Definition with_ch_r_y (v : Z) (d : Data) : Data :=
  {| ch_r_x := ch_r_x d; ch_r_y := v; ch_l_x := ch_l_x d;
     ch_l_y := ch_l_y d; sw_r := sw_r d; sw_l := sw_l d;
     x := x d; y := y d; z := z d;
     press_l := press_l d; press_r := press_r d; key := key d;
     res := res d |}.

Definition with_ch_l_x (v : Z) (d : Data) : Data :=
  {| ch_r_x := ch_r_x d; ch_r_y := ch_r_y d; ch_l_x := v;
     ch_l_y := ch_l_y d; sw_r := sw_r d; sw_l := sw_l d;
     x := x d; y := y d; z := z d;
     press_l := press_l d; press_r := press_r d; key := key d;
     res := res d |}.

Definition with_ch_l_y (v : Z) (d : Data) : Data :=
  {| ch_r_x := ch_r_x d; ch_r_y := ch_r_y d; ch_l_x := ch_l_x d;
     ch_l_y := v; sw_r := sw_r d; sw_l := sw_l d;
     x := x d; y := y d; z := z d;
     press_l := press_l d; press_r := press_r d; key := key d;
     res := res d |}.

Definition with_sw_r (v : Z) (d : Data) : Data :=
  {| ch_r_x := ch_r_x d; ch_r_y := ch_r_y d; ch_l_x := ch_l_x d;
     ch_l_y := ch_l_y d; sw_r := v; sw_l := sw_l d;
     x := x d; y := y d; z := z d;
     press_l := press_l d; press_r := press_r d; key := key d;
     res := res d |}.

Definition with_sw_l (v : Z) (d : Data) : Data :=
  {| ch_r_x := ch_r_x d; ch_r_y := ch_r_y d; ch_l_x := ch_l_x d;
     ch_l_y := ch_l_y d; sw_r := sw_r d; sw_l := v;
     x := x d; y := y d; z := z d;
     press_l := press_l d; press_r := press_r d; key := key d;
     res := res d |}.

(** A valid frame with some pointer motion and keys. *)
Definition sample_frame : Data := centred (-5) 7 0 1 0 513 65535.

(** The same frame with the right-X channel at 300. *)
Definition sample_bad_frame : Data := with_ch_r_x 300 sample_frame.

(** The same valid frame with other pointer, button and key members. *)
Definition sample_frame' : Data := centred 100 (-32768) 32767 0 255 0 0.

Definition sample_object : DR16 :=
  {| data_ := sample_bad_frame; data_view_ := zero_view |}.

(** The 18 bytes of [sample_frame] as the receiver sends them. *)
Definition sample_block : list byte :=
  [ Byte.x00; Byte.x04; Byte.x20; Byte.x00; Byte.x01; Byte.x58;
    Byte.xfb; Byte.xff; Byte.x07; Byte.x00; Byte.x00; Byte.x00;
    Byte.x01; Byte.x00; Byte.x01; Byte.x02; Byte.xff; Byte.xff ].

(** The 18 bytes of [sample_frame']: the first six as in
    [sample_block], the others different. *)
Definition sample_block' : list byte :=
  [ Byte.x00; Byte.x04; Byte.x20; Byte.x00; Byte.x01; Byte.x58;
    Byte.x64; Byte.x00; Byte.x00; Byte.x80; Byte.xff; Byte.x7f;
    Byte.x00; Byte.xff; Byte.x00; Byte.x00; Byte.x00; Byte.x00 ].

(** The 18 bytes of [sample_bad_frame]. *)
Definition sample_bad_block : list byte :=
  [ Byte.x2c; Byte.x01; Byte.x20; Byte.x00; Byte.x01; Byte.x58;
    Byte.xfb; Byte.xff; Byte.x07; Byte.x00; Byte.x00; Byte.x00;
    Byte.x01; Byte.x00; Byte.x01; Byte.x02; Byte.xff; Byte.xff ].

(** The members that cover bit [i] of the object representation. *)
Definition members : list member :=
  map decl_name Data_decls.

Definition covering (i : Z) : list member :=
  filter (fun m => (bit_offset m <=? i) && (i <? bit_offset m + bit_width m))
         members.

(* ===================================================================== *)
(** ** Further notions used in the statements *)
(* ===================================================================== *)

(** The four ways a key is reported: alone or with Shift, Ctrl or both. *)
Inductive modifier : Type := Plain | WithShift | WithCtrl | WithShiftCtrl.

Definition modifier_index (m : modifier) : Z :=
  match m with
  | Plain => 0
  | WithShift => 1
  | WithCtrl => 2
  | WithShiftCtrl => 3
  end.

(** The code under which key [k] is reported with modifier [m]. *)
Definition event_code (m : modifier) (k : Key) : Z :=
  match m with
  | Plain => Key_value k
  | WithShift => ShiftWith k
  | WithCtrl => CtrlWith k
  | WithShiftCtrl => ShiftCtrlWith k
  end.

(** The little-endian number held by the [n] bytes of a block that
    start at byte [a]. *)
Definition le_bytes (a n : nat) (bs : list byte) : Z :=
  le_combine (firstn n (skipn a bs)).

(** Number of [Reset] calls and total of the [Sleep] arguments. *)
Definition reset_count (calls : list call) : nat :=
  length (filter (fun c => match c with Reset_called => true | _ => false end)
                 calls).

Definition total_sleep (calls : list call) : Z :=
  fold_right (fun c acc =>
                match c with Sleep_called ms => ms + acc | _ => acc end)
             0 calls.

(** The frames of a stream of blocks that the validator accepts, and
    those it rejects. *)
Definition accepted (rx : list (list byte)) : list Data :=
  filter (fun d => negb (frame_corrupted d)) (map Data_of_bytes rx).

Definition rejected (rx : list (list byte)) : list Data :=
  filter frame_corrupted (map Data_of_bytes rx).




(** The view [DataviewToData] writes for a frame. *)
Definition view_of (d : Data) : DataView.t :=
  fst (DataviewToData zero_view d).

(** What a consumer of the topic can rely on in a frame. *)
Definition published_frame_ok (d : Data) : Prop :=
  (364 <= ch_r_x d <= 1684 /\ 364 <= ch_r_y d <= 1684 /\
   364 <= ch_l_x d <= 1684 /\ 364 <= ch_l_y d <= 1684) /\
  (1 <= sw_r d <= 3 /\ 1 <= sw_l d <= 3) /\
  (-32768 <= x d <= 32767 /\ -32768 <= y d <= 32767 /\
   -32768 <= z d <= 32767) /\
  (0 <= press_l d <= 255 /\ 0 <= press_r d <= 255) /\
  (0 <= key d <= 65535 /\ 0 <= res d <= 65535).

(* ===================================================================== *)
(** * Properties *)
(* ===================================================================== *)

(** ** Key and combination codes *)

Lemma Key_value_range (k : Key) :
  6 <= Key_value k <= 26.
Proof. destruct k; vm_compute; split; discriminate. Qed.

Lemma KEY_NUM_value : Key_value KEY_NUM = 26.
Proof. reflexivity. Qed.

Lemma as_uint8_Key_value (k : Key) : as_uint8 (Key_value k) = Key_value k.
Proof. destruct k; reflexivity. Qed.

(** No wrap-around occurs in the combination codes: each is the key's
    value plus a multiple of the value of [KEY_NUM]. *)
Lemma combination_codes (k : Key) :
  ShiftWith k = Key_value k + 1 * Key_value KEY_NUM /\
  CtrlWith k = Key_value k + 2 * Key_value KEY_NUM /\
  ShiftCtrlWith k = Key_value k + 3 * Key_value KEY_NUM.
Proof.
  unfold ShiftWith, CtrlWith, ShiftCtrlWith, as_uint32, as_unsigned.
  rewrite !as_uint8_Key_value, KEY_NUM_value.
  pose proof (Key_value_range k) as Hk.
  repeat split; apply Z.mod_small; lia.
Qed.

(** C6, as stated, fails: with N the number of base keys and events
    (20), [ShiftWith KEY_W] is not [KEY_W]'s code plus N. *)
Lemma C6_offset_is_not_base_key_count :
  base_key_count = 20 /\
  ShiftWith KEY_W <> Key_value KEY_W + 1 * base_key_count.
Proof. split; [reflexivity | vm_compute; discriminate]. Qed.

(** C6 (amended): for every key [k], [ShiftWith k], [CtrlWith k] and
    [ShiftCtrlWith k] are the code of [k] plus N, 2N and 3N, where N is
    the value of [KEY_NUM], 26: the number of switch positions (6) plus
    the number of base keys and events (20). The three combination codes
    of a key are pairwise distinct and distinct from its base code. *)
Theorem C6_combination_offsets (k : Key) :
  let N := Key_value KEY_NUM in
  N = 26 /\
  N = SwitchPos_value DR16_SW_POS_NUM + base_key_count /\
  ShiftWith k = Key_value k + N /\
  CtrlWith k = Key_value k + 2 * N /\
  ShiftCtrlWith k = Key_value k + 3 * N /\
  ShiftWith k <> Key_value k /\
  CtrlWith k <> Key_value k /\
  ShiftCtrlWith k <> Key_value k /\
  ShiftWith k <> CtrlWith k /\
  ShiftWith k <> ShiftCtrlWith k /\
  CtrlWith k <> ShiftCtrlWith k.
Proof.
  cbv zeta.
  destruct (combination_codes k) as (Hs & Hc & Hsc).
  rewrite Hs, Hc, Hsc, KEY_NUM_value.
  repeat split; try reflexivity; lia.
Qed.

(** C10: base codes start at 6 ([KEY_W], the number of switch
    positions) and lie below [KEY_NUM] = 26, and for any two keys a code
    of one family (base, Shift, Ctrl, Shift+Ctrl) never equals a code of
    another family. *)
Theorem C10_code_families_disjoint (k1 k2 : Key) :
  Key_value KEY_W = SwitchPos_value DR16_SW_POS_NUM /\
  Key_value KEY_W = 6 /\
  Key_value KEY_NUM = 26 /\
  Forall (fun k => Key_value KEY_W <= Key_value k < Key_value KEY_NUM)
         base_keys /\
  Key_value k1 <> ShiftWith k2 /\
  Key_value k1 <> CtrlWith k2 /\
  Key_value k1 <> ShiftCtrlWith k2 /\
  ShiftWith k1 <> CtrlWith k2 /\
  ShiftWith k1 <> ShiftCtrlWith k2 /\
  CtrlWith k1 <> ShiftCtrlWith k2.
Proof.
  destruct (combination_codes k1) as (Hs1 & Hc1 & Hsc1).
  destruct (combination_codes k2) as (Hs2 & Hc2 & Hsc2).
  pose proof (Key_value_range k1) as H1.
  pose proof (Key_value_range k2) as H2.
  rewrite Hs1, Hc1, Hs2, Hc2, Hsc2, KEY_NUM_value.
  split; [reflexivity|]. split; [reflexivity|]. split; [reflexivity|].
  split.
  - unfold base_keys. cbn [removelast Key_enumerators].
    repeat constructor; vm_compute; discriminate.
  - repeat split; lia.
Qed.

(** ** The validator *)

Lemma DataCorrupted_verdict (this : DR16) :
  fst (DataCorrupted this) =
  (ch_r_x (data_ this) <? DR16_CH_VALUE_MIN) ||
  (ch_r_x (data_ this) >? DR16_CH_VALUE_MAX) ||
  ((ch_r_y (data_ this) <? DR16_CH_VALUE_MIN) ||
   (ch_r_y (data_ this) >? DR16_CH_VALUE_MAX)) ||
  ((ch_l_x (data_ this) <? DR16_CH_VALUE_MIN) ||
   (ch_l_x (data_ this) >? DR16_CH_VALUE_MAX)) ||
  ((ch_l_y (data_ this) <? DR16_CH_VALUE_MIN) ||
   (ch_l_y (data_ this) >? DR16_CH_VALUE_MAX)) ||
  (sw_l (data_ this) =? 0) || (sw_r (data_ this) =? 0).
Proof.
  unfold DataCorrupted.
  repeat match goal with
  | |- context [if ?c then _ else _] => destruct c; cbn [fst orb]
  end; reflexivity.
Qed.

Lemma DataCorrupted_object (this : DR16) : snd (DataCorrupted this) = this.
Proof.
  unfold DataCorrupted.
  repeat match goal with
  | |- context [if ?c then _ else _] => destruct c
  end; reflexivity.
Qed.

Lemma DataCorrupted_frame (this : DR16) :
  fst (DataCorrupted this) = frame_corrupted (data_ this).
Proof. unfold frame_corrupted. rewrite !DataCorrupted_verdict. reflexivity. Qed.

Ltac to_Prop :=
  rewrite ?orb_true_iff, ?orb_false_iff, ?Z.ltb_lt, ?Z.gtb_gt, ?Z.eqb_eq,
          ?Z.ltb_ge, ?Z.eqb_neq.

(** C1: the validator reports a frame corrupted exactly when one of the
    four channels is below 364 or above 1684, or [sw_l] is 0, or [sw_r]
    is 0; a frame passing the six checks is reported valid. On a frame
    that is valid otherwise, each channel on its own is accepted at 364
    and 1684 and rejected at 363 and 1685. *)
Theorem C1_DataCorrupted_iff (this : DR16) :
  let d := data_ this in
  (fst (DataCorrupted this) = true <->
     (ch_r_x d < 364 \/ ch_r_x d > 1684) \/
     (ch_r_y d < 364 \/ ch_r_y d > 1684) \/
     (ch_l_x d < 364 \/ ch_l_x d > 1684) \/
     (ch_l_y d < 364 \/ ch_l_y d > 1684) \/
     sw_l d = 0 \/ sw_r d = 0) /\
  (fst (DataCorrupted this) = false <->
     364 <= ch_r_x d <= 1684 /\ 364 <= ch_r_y d <= 1684 /\
     364 <= ch_l_x d <= 1684 /\ 364 <= ch_l_y d <= 1684 /\
     sw_l d <> 0 /\ sw_r d <> 0) /\
  (forall vx vy vz pl pr k r,
     let ok := centred vx vy vz pl pr k r in
     frame_corrupted ok = false /\
     Forall (fun set_channel : Z -> Data -> Data =>
       frame_corrupted (set_channel 363 ok) = true /\
       frame_corrupted (set_channel 364 ok) = false /\
       frame_corrupted (set_channel 1684 ok) = false /\
       frame_corrupted (set_channel 1685 ok) = true)
       [with_ch_r_x; with_ch_r_y; with_ch_l_x; with_ch_l_y] /\
     Forall (fun set_switch : Z -> Data -> Data =>
       frame_corrupted (set_switch 0 ok) = true /\
       frame_corrupted (set_switch 1 ok) = false /\
       frame_corrupted (set_switch 2 ok) = false /\
       frame_corrupted (set_switch 3 ok) = false)
       [with_sw_l; with_sw_r]).
Proof.
  cbv zeta. rewrite DataCorrupted_verdict.
  unfold DR16_CH_VALUE_MIN, DR16_CH_VALUE_MAX.
  split; [|split].
  - to_Prop. tauto.
  - to_Prop. lia.
  - intros. split; [reflexivity|]. split; repeat constructor.
Qed.

(** C7: the verdict depends only on the four channels and the two
    switches: two objects whose frames agree on these six members get
    the same verdict, whatever their pointer, button, key and reserved
    members (and debug views) are. *)
Theorem C7_verdict_depends_on_six_members (this1 this2 : DR16) :
  ch_r_x (data_ this1) = ch_r_x (data_ this2) ->
  ch_r_y (data_ this1) = ch_r_y (data_ this2) ->
  ch_l_x (data_ this1) = ch_l_x (data_ this2) ->
  ch_l_y (data_ this1) = ch_l_y (data_ this2) ->
  sw_l (data_ this1) = sw_l (data_ this2) ->
  sw_r (data_ this1) = sw_r (data_ this2) ->
  fst (DataCorrupted this1) = fst (DataCorrupted this2).
Proof.
  intros H1 H2 H3 H4 H5 H6.
  rewrite !DataCorrupted_verdict, H1, H2, H3, H4, H5, H6.
  reflexivity.
Qed.

Lemma C7_witness :
  data_ {| data_ := sample_frame; data_view_ := zero_view |} <>
  data_ {| data_ := sample_frame'; data_view_ := zero_view |} /\
  fst (DataCorrupted {| data_ := sample_frame; data_view_ := zero_view |}) =
  fst (DataCorrupted {| data_ := sample_frame'; data_view_ := zero_view |}).
Proof.
  split.
  - vm_compute. discriminate.
  - apply C7_verdict_depends_on_six_members; reflexivity.
Defined.

(** C9: the validator leaves the object, and with it every member of
    the frame, as it found it. *)
Theorem C9_DataCorrupted_read_only (this : DR16) :
  snd (DataCorrupted this) = this /\
  data_ (snd (DataCorrupted this)) = data_ this /\
  forall m, member_value (data_ (snd (DataCorrupted this))) m =
            member_value (data_ this) m.
Proof.
  rewrite DataCorrupted_object. repeat split.
Qed.

(** ** The layout of [Data] *)

Ltac layout_consts :=
  repeat match goal with
  | |- context [bit_offset ?m] =>
      let v := eval vm_compute in (bit_offset m) in change (bit_offset m) with v
  | |- context [bit_width ?m] =>
      let v := eval vm_compute in (bit_width m) in change (bit_width m) with v
  | |- context [is_signed ?m] =>
      let v := eval vm_compute in (is_signed m) in change (is_signed m) with v
  end.

(** Decide every comparison of the goal that linear arithmetic settles,
    drop the bits at negative positions, and simplify the booleans. *)
Ltac settle_cmp :=
  repeat match goal with
  | |- context [?a <? ?b] =>
      first [ rewrite (proj2 (Z.ltb_lt a b)) by lia
            | rewrite (proj2 (Z.ltb_ge a b)) by lia ]
  | |- context [?a <=? ?b] =>
      first [ rewrite (proj2 (Z.leb_le a b)) by lia
            | rewrite (proj2 (Z.leb_gt a b)) by lia ]
  | |- context [Z.testbit ?v ?k] =>
      rewrite (Z.testbit_neg_r v k) by lia
  end;
  cbn [andb orb];
  rewrite ?andb_false_r, ?orb_false_r, ?andb_true_r.

Lemma testbit_bits w off len j :
  0 <= off -> 0 <= len -> 0 <= j ->
  Z.testbit (bits w off len) j = (j <? len) && Z.testbit w (j + off).
Proof.
  intros Hoff Hlen Hj. unfold bits.
  rewrite Z.land_spec, Z.shiftr_spec, Z.testbit_ones by lia.
  rewrite (proj2 (Z.leb_le 0 j)) by lia. cbn [andb].
  apply andb_comm.
Qed.

Lemma testbit_place v w off i :
  0 <= w -> 0 <= off -> 0 <= i ->
  Z.testbit (Z.shiftl (as_unsigned w v) off) i =
  (off <=? i) && (i <? off + w) && Z.testbit v (i - off).
Proof.
  intros Hw Hoff Hi. unfold as_unsigned.
  rewrite Z.shiftl_spec by lia.
  destruct (Z.leb_spec off i) as [Hle | Hlt]; cbn [andb].
  - rewrite Z.testbit_mod_pow2 by lia. f_equal.
    apply eq_iff_eq_true. rewrite !Z.ltb_lt. lia.
  - apply Z.testbit_neg_r. lia.
Qed.

Lemma as_unsigned_as_signed n v :
  0 < n -> as_unsigned n (as_signed n v) = as_unsigned n v.
Proof.
  intros Hn. unfold as_unsigned, as_signed.
  rewrite Zminus_mod_idemp_l. f_equal. lia.
Qed.

Lemma as_signed_as_unsigned n v :
  0 < n -> - 2 ^ (n - 1) <= v < 2 ^ (n - 1) ->
  as_signed n (as_unsigned n v) = v.
Proof.
  intros Hn Hv. unfold as_unsigned, as_signed.
  rewrite Zplus_mod_idemp_l.
  assert (H2 : 2 ^ n = 2 * 2 ^ (n - 1)).
  { rewrite <- Z.pow_succ_r by lia. f_equal. lia. }
  rewrite Z.mod_small by lia. lia.
Qed.


Lemma bit_offset_nonneg m : 0 <= bit_offset m.
Proof. destruct m; vm_compute; discriminate. Qed.

Lemma bit_width_pos m : 0 < bit_width m.
Proof. destruct m; reflexivity. Qed.

Lemma member_end m : bit_offset m + bit_width m <= Data_bits.
Proof. destruct m; vm_compute; discriminate. Qed.

Lemma testbit_encode_bits d i :
  0 <= i ->
  Z.testbit (encode_bits d) i =
  existsb (fun dc =>
    let m := decl_name dc in
    (bit_offset m <=? i) && (i <? bit_offset m + bit_width m) &&
    Z.testbit (member_value d m) (i - bit_offset m)) Data_decls.
Proof.
  intros Hi. unfold encode_bits, place.
  induction Data_decls as [|dc ds IH]; cbn [fold_right existsb].
  - apply Z.bits_0.
  - rewrite Z.lor_spec, IH. f_equal.
    apply testbit_place; trivial.
    + pose proof (bit_width_pos (decl_name dc)). lia.
    + apply bit_offset_nonneg.
Qed.

Lemma le_combine_encode d :
  le_combine (encode d) = as_unsigned Data_bits (encode_bits d).
Proof. unfold encode. rewrite le_combine_split. reflexivity. Qed.

(** The bits of member [m] in an encoded frame are the member's value,
    truncated to the member's width. *)
Lemma bits_encode d m :
  bits (le_combine (encode d)) (bit_offset m) (bit_width m) =
  as_unsigned (bit_width m) (member_value d m).
Proof.
  rewrite le_combine_encode.
  pose proof (bit_offset_nonneg m) as Ho.
  pose proof (bit_width_pos m) as Hw.
  pose proof (member_end m) as He.
  apply Z.bits_inj'. intros j Hj.
  rewrite testbit_bits by lia.
  unfold as_unsigned.
  assert (Hb : 0 <= Data_bits) by (vm_compute; discriminate).
  rewrite !Z.testbit_mod_pow2 by lia.
  destruct (Z.ltb_spec j (bit_width m)) as [Hlt | Hge]; cbn [andb]; trivial.
  rewrite (proj2 (Z.ltb_lt (j + bit_offset m) Data_bits)) by lia. cbn [andb].
  rewrite testbit_encode_bits by lia.
  revert Hlt Ho Hw He.
  destruct m; cbn [existsb Data_decls decl_name]; layout_consts; intros;
    settle_cmp; f_equal; lia.
Qed.

Lemma member_value_of_bytes bs m :
  member_value (Data_of_bytes bs) m = read_member (le_combine bs) m.
Proof. destruct m; reflexivity. Qed.

Lemma bits_range w off len : 0 <= len -> 0 <= bits w off len < 2 ^ len.
Proof.
  intros Hlen. unfold bits. rewrite Z.land_ones by lia.
  apply Z.mod_pos_bound. apply Z.pow_pos_nonneg; lia.
Qed.

(** Truncating a member that was read gives back the bits it was read
    from, signed or not. *)
Lemma as_unsigned_read_member w m :
  as_unsigned (bit_width m) (read_member w m) =
  bits w (bit_offset m) (bit_width m).
Proof.
  pose proof (bit_width_pos m) as Hw.
  unfold read_member.
  destruct (is_signed m).
  - rewrite as_unsigned_as_signed by lia.
    apply Z.mod_small, bits_range; lia.
  - apply Z.mod_small, bits_range; lia.
Qed.

(** Every bit of the [Data_bits] bits of a block lies in exactly the
    members that [Data_layout] puts there, so re-encoding what was read
    gives the block back. *)
Lemma encode_bits_of_bytes bs :
  encode_bits (Data_of_bytes bs) = as_unsigned Data_bits (le_combine bs).
Proof.
  apply Z.bits_inj'. intros i Hi.
  unfold as_unsigned.
  rewrite Z.testbit_mod_pow2 by (vm_compute; discriminate).
  unfold encode_bits.
  cbn [fold_right Data_decls decl_name]. unfold place.
  rewrite !member_value_of_bytes, !as_unsigned_read_member.
  rewrite !Z.lor_spec, Z.bits_0.
  rewrite !Z.shiftl_spec by lia.
  layout_consts. change Data_bits with 144.
  assert (Hcase : i < 11 \/ 11 <= i < 22 \/ 22 <= i < 33 \/ 33 <= i < 44 \/
                  44 <= i < 46 \/ 46 <= i < 48 \/ 48 <= i < 64 \/
                  64 <= i < 80 \/ 80 <= i < 96 \/ 96 <= i < 104 \/
                  104 <= i < 112 \/ 112 <= i < 128 \/ 128 <= i < 144 \/
                  144 <= i) by lia.
  repeat (destruct Hcase as [Hcase | Hcase]);
    repeat match goal with
    | |- context [Z.testbit (bits ?w ?o ?l) ?k] =>
        first [ rewrite (Z.testbit_neg_r (bits w o l) k) by lia
              | rewrite (testbit_bits w o l k) by lia ]
    end;
    rewrite ?Z.sub_add, ?Z.sub_0_r, ?Z.add_0_r;
    settle_cmp; reflexivity.
Qed.

Lemma pow2_double n : 0 < n -> 2 ^ n = 2 * 2 ^ (n - 1).
Proof.
  intros Hn. rewrite <- Z.pow_succ_r by lia. f_equal. lia.
Qed.

Lemma as_signed_range n v :
  0 < n -> - 2 ^ (n - 1) <= as_signed n v < 2 ^ (n - 1).
Proof.
  intros Hn. unfold as_signed.
  pose proof (pow2_double n Hn) as H2.
  assert (Hpos : 0 < 2 ^ (n - 1)) by (apply Z.pow_pos_nonneg; lia).
  pose proof (Z.mod_pos_bound (v + 2 ^ (n - 1)) (2 ^ n)). lia.
Qed.

(** Whatever the block, the members read from it are within their
    declared widths. *)
Lemma Data_of_bytes_wf bs : Data_wf (Data_of_bytes bs).
Proof.
  intros m. rewrite member_value_of_bytes.
  pose proof (bit_width_pos m) as Hw.
  unfold member_range, read_member.
  destruct (is_signed m).
  - apply as_signed_range; lia.
  - apply bits_range; lia.
Qed.

(** Reading a member of an encoded frame gives the member's value when
    that value is within the member's declared width. *)
Lemma read_member_encode d m :
  member_range m (member_value d m) ->
  read_member (le_combine (encode d)) m = member_value d m.
Proof.
  pose proof (bit_width_pos m) as Hw.
  unfold member_range, read_member. rewrite bits_encode.
  destruct (is_signed m); intros Hr.
  - apply as_signed_as_unsigned; lia.
  - apply Z.mod_small; lia.
Qed.

Lemma Data_of_bytes_encode d : Data_wf d -> Data_of_bytes (encode d) = d.
Proof.
  intros Hwf. destruct d. unfold Data_of_bytes.
  f_equal;
    match goal with
    | |- read_member _ ?m = _ => rewrite read_member_encode; [reflexivity | apply (Hwf m)]
    end.
Qed.

Lemma length_encode d : length (encode d) = sizeof_Data.
Proof. apply length_le_split. Qed.

Lemma encode_Data_of_bytes bs :
  length bs = sizeof_Data -> encode (Data_of_bytes bs) = bs.
Proof.
  intros Hlen. unfold encode. rewrite encode_bits_of_bytes.
  unfold as_unsigned.
  change Data_bits with (Z.of_nat sizeof_Data * 8).
  rewrite <- le_split_mod, <- Hlen.
  apply split_le_combine.
Qed.

Lemma covering_unique i :
  0 <= i < Data_bits -> exists m, covering i = [m].
Proof.
  change Data_bits with 144. intros Hi.
  assert (Hcase : i < 11 \/ 11 <= i < 22 \/ 22 <= i < 33 \/ 33 <= i < 44 \/
                  44 <= i < 46 \/ 46 <= i < 48 \/ 48 <= i < 64 \/
                  64 <= i < 80 \/ 80 <= i < 96 \/ 96 <= i < 104 \/
                  104 <= i < 112 \/ 112 <= i < 128 \/ 128 <= i) by lia.
  unfold covering, members.
  cbn [map Data_decls decl_name filter]. layout_consts.
  repeat (destruct Hcase as [Hcase | Hcase]);
    settle_cmp; eexists; reflexivity.
Qed.

Lemma Data_of_bytes_inj b1 b2 :
  length b1 = sizeof_Data -> length b2 = sizeof_Data ->
  Data_of_bytes b1 = Data_of_bytes b2 -> b1 = b2.
Proof.
  intros H1 H2 Heq.
  rewrite <- (encode_Data_of_bytes b1 H1), <- (encode_Data_of_bytes b2 H2).
  rewrite Heq. reflexivity.
Qed.

(** C4: the object representation of [Data] is exactly 18 bytes, all of
    them member bits (144 = 8 * 18, no padding); the members lie one
    after the other in the order four unsigned 11-bit channels, two
    unsigned 2-bit switches, three signed 16-bit pointer motions, two
    8-bit buttons, the 16-bit key mask and the 16-bit reserved member;
    every bit of a block belongs to exactly one member, so two blocks
    of 18 bytes that read as the same frame are the same block. *)
Theorem C4_wire_layout :
  sizeof_Data = 18%nat /\
  Data_bits = 8 * Z.of_nat sizeof_Data /\
  map (fun '(d, off) =>
         (decl_name d, ctype_signed (decl_type d), decl_width d, off))
      Data_layout =
    [ (m_ch_r_x, false, 11, 0);
      (m_ch_r_y, false, 11, 11);
      (m_ch_l_x, false, 11, 22);
      (m_ch_l_y, false, 11, 33);
      (m_sw_r, false, 2, 44);
      (m_sw_l, false, 2, 46);
      (m_x, true, 16, 48);
      (m_y, true, 16, 64);
      (m_z, true, 16, 80);
      (m_press_l, false, 8, 96);
      (m_press_r, false, 8, 104);
      (m_key, false, 16, 112);
      (m_res, false, 16, 128) ] /\
  (forall i, 0 <= i < Data_bits -> exists m, covering i = [m]) /\
  (forall b1 b2,
     length b1 = sizeof_Data -> length b2 = sizeof_Data ->
     Data_of_bytes b1 = Data_of_bytes b2 -> b1 = b2).
Proof.
  split; [reflexivity|]. split; [reflexivity|]. split; [reflexivity|].
  split; [exact covering_unique | exact Data_of_bytes_inj].
Qed.

Lemma C4_witness :
  (0 <= 45 < Data_bits /\ exists m, covering 45 = [m]) /\
  (Data_of_bytes sample_block = Data_of_bytes (encode sample_frame) /\
   sample_block = encode sample_frame).
Proof.
  destruct C4_wire_layout as (_ & _ & _ & Hcover & Hinj).
  split.
  - split; [vm_compute; split; [discriminate | reflexivity] |].
    apply Hcover. vm_compute. split; [discriminate | reflexivity].
  - assert (Heq : Data_of_bytes sample_block =
                  Data_of_bytes (encode sample_frame))
      by (vm_compute; reflexivity).
    split; [exact Heq|].
    apply Hinj; [reflexivity | reflexivity | exact Heq].
Defined.

(** C5: a frame whose members are within their declared widths comes
    back member for member when it is encoded into the 18-byte layout
    and read again. Reading is defined on every block and validates
    nothing: what it returns is always within the declared widths, and
    a frame the validator rejects is returned like any other. *)
Theorem C5_encode_decode_round_trip :
  (forall d, Data_wf d ->
     length (encode d) = sizeof_Data /\ Data_of_bytes (encode d) = d) /\
  (forall bs, Data_wf (Data_of_bytes bs)) /\
  (frame_corrupted sample_bad_frame = true /\
   Data_of_bytes (encode sample_bad_frame) = sample_bad_frame /\
   Data_of_bytes sample_bad_block = sample_bad_frame).
Proof.
  split; [|split; [|split; [|split]]].
  - intros d Hwf. split; [apply length_encode | apply Data_of_bytes_encode, Hwf].
  - exact Data_of_bytes_wf.
  - reflexivity.
  - vm_compute. reflexivity.
  - vm_compute. reflexivity.
Qed.

Lemma C5_witness :
  Data_wf sample_frame /\
  length (encode sample_frame) = sizeof_Data /\
  Data_of_bytes (encode sample_frame) = sample_frame.
Proof.
  assert (Hwf : Data_wf sample_frame).
  { intros m. destruct m; vm_compute; split; first [discriminate | reflexivity]. }
  split; [exact Hwf|].
  apply (proj1 C5_encode_decode_round_trip sample_frame Hwf).
Defined.

(** ** The acquisition thread *)

Arguments run : simpl never.
Arguments DataCorrupted : simpl never.
Arguments Data_of_bytes : simpl never.
Arguments sizeof_Data : simpl never.

Lemma run_O {R : Type} rx (t : itree dr16E R) : run O rx t = ([], Running).
Proof. reflexivity. Qed.

Lemma run_step {R : Type} fuel rx (t : itree dr16E R) :
  run (S fuel) rx t =
  match observe t with
  | RetF _ => ([], Returned)
  | TauF t' => run fuel rx t'
  | VisF e k =>
      match e in dr16E X return (X -> itree dr16E R) -> list call * status with
      | read_port_Reset => fun k =>
          let (calls, st) := run fuel rx (k tt) in
          (Reset_called :: calls, st)
      | uart_Read size => fun k =>
          match rx with
          | [] => ([], AwaitingFrame)
          | block :: rx' =>
              let (calls, st) := run fuel rx' (k block) in
              (Read_returned size block :: calls, st)
          end
      | Thread_Sleep ms => fun k =>
          let (calls, st) := run fuel rx (k tt) in
          (Sleep_called ms :: calls, st)
      | cmd_tp_Publish data => fun k =>
          let (calls, st) := run fuel rx (k tt) in
          (Publish_called data :: calls, st)
      end k
  end.
Proof. reflexivity. Qed.

Lemma run_bind_ret {R S T : Type} fuel rx (b : T)
  (f : T -> itree dr16E S) (k : S -> itree dr16E R) :
  run fuel rx (ITree.subst k (ITree.subst f (Ret b))) =
  run fuel rx (ITree.subst k (f b)).
Proof. destruct fuel; reflexivity. Qed.

Lemma run_subst_ret {R T : Type} fuel rx (b : T) (k : T -> itree dr16E R) :
  run fuel rx (ITree.subst k (Ret b)) = run fuel rx (k b).
Proof. destruct fuel; reflexivity. Qed.

Ltac destruct_run :=
  match goal with
  | |- context [run ?f ?r ?t] => destruct (run f r t); reflexivity
  end.

(** One pass through the loop body, from the loop head, when the
    transport has a block to deliver. *)
Lemma run_iteration debug dr16 block rx fuel :
  run (S (S (S (S fuel)))) (block :: rx)
      (ITree.iter (Thread_Dr16_body debug) dr16) =
  let this := {| data_ := Data_of_bytes block;
                 data_view_ := data_view_ dr16 |} in
  if fst (DataCorrupted this) then
    let (calls, st) :=
      run fuel rx (ITree.iter (Thread_Dr16_body debug)
                              (snd (DataCorrupted this))) in
    (Read_returned sizeof_Data block ::
     Reset_called :: Sleep_called 3 :: calls, st)
  else
    let next := after_valid debug (snd (DataCorrupted this)) in
    let (calls, st) :=
      run (S fuel) rx (ITree.iter (Thread_Dr16_body debug) next) in
    (Read_returned sizeof_Data block ::
     Publish_called (data_ next) :: calls, st).
Proof.
  rewrite run_step. cbn. rewrite run_bind_ret. cbv beta.
  destruct (DataCorrupted _) as [c this'] eqn:E. cbn [fst snd].
  destruct c.
  - do 3 (rewrite run_step; cbn). destruct_run.
  - unfold after_valid. destruct debug.
    + do 2 (rewrite run_step; cbn). destruct_run.
    + destruct this' as [d v]. do 2 (rewrite run_step; cbn). destruct_run.
Qed.

(** At the loop head with nothing to deliver the thread blocks. *)
Lemma run_awaiting debug dr16 fuel :
  run (S fuel) [] (ITree.iter (Thread_Dr16_body debug) dr16) =
  ([], AwaitingFrame).
Proof. reflexivity. Qed.

Lemma after_valid_data debug this : data_ (after_valid debug this) = data_ this.
Proof. destruct debug; reflexivity. Qed.

(** The loop, from the loop head, on the blocks [rx]. *)
Lemma run_loop debug rx : forall dr16 fuel,
  (4 * length rx + 1 <= fuel)%nat ->
  run fuel rx (ITree.iter (Thread_Dr16_body debug) dr16) =
  (flat_map iteration_calls rx, AwaitingFrame).
Proof.
  induction rx as [|block rx IH]; intros dr16 fuel Hfuel.
  - destruct fuel as [|fuel]; [cbn in Hfuel; lia|]. apply run_awaiting.
  - cbn [length] in Hfuel.
    destruct fuel as [|[|[|[|fuel]]]]; try lia.
    rewrite run_iteration. cbv zeta.
    rewrite !IH by lia.
    rewrite after_valid_data, DataCorrupted_object, DataCorrupted_frame.
    cbn [data_].
    change (flat_map iteration_calls (block :: rx))
      with (iteration_calls block ++ flat_map iteration_calls rx).
    unfold iteration_calls at 3.
    destruct (frame_corrupted (Data_of_bytes block)); reflexivity.
Qed.

(** The whole thread function on the blocks [rx]. *)
Lemma run_Thread_Dr16 debug dr16 rx fuel :
  (4 * length rx + 2 <= fuel)%nat ->
  run fuel rx (Thread_Dr16 debug dr16) =
  (Reset_called :: flat_map iteration_calls rx, AwaitingFrame).
Proof.
  intros Hfuel. destruct fuel as [|fuel]; [lia|].
  unfold Thread_Dr16. rewrite run_step. cbn.
  rewrite run_subst_ret, run_loop by lia. reflexivity.
Qed.

(** A run that has ended, by returning or by blocking, ends the same way
    with any larger step budget. *)
Lemma run_fuel_mono {R : Type} fuel : forall fuel' rx (t : itree dr16E R) calls st,
  (fuel <= fuel')%nat ->
  run fuel rx t = (calls, st) -> st <> Running ->
  run fuel' rx t = (calls, st).
Proof.
  induction fuel as [|fuel IH]; intros fuel' rx t calls st Hle Hrun Hst.
  - rewrite run_O in Hrun. congruence.
  - destruct fuel' as [|fuel']; [lia|].
    rewrite run_step in *.
    destruct (observe t) as [r | t' | X e k]; trivial.
    + apply IH; trivial; lia.
    + destruct e; try destruct rx as [|block rx]; trivial;
        match type of Hrun with
        | context [run fuel ?r ?u] =>
            destruct (run fuel r u) as [calls0 st0] eqn:E;
            rewrite (IH fuel' r u calls0 st0); trivial; try lia;
            congruence
        end.
Qed.

(** The thread function never returns, whatever arrives and however
    long it runs. *)
Lemma Thread_Dr16_never_returns debug dr16 rx fuel :
  snd (run fuel rx (Thread_Dr16 debug dr16)) <> Returned.
Proof.
  destruct (run fuel rx (Thread_Dr16 debug dr16)) as [calls st] eqn:E.
  cbn [snd]. intros ->.
  apply (run_fuel_mono fuel (fuel + (4 * length rx + 2))) in E;
    [| lia | discriminate].
  rewrite run_Thread_Dr16 in E by lia. discriminate.
Qed.

Lemma published_iterations rx :
  published (flat_map iteration_calls rx) =
  filter (fun d => negb (frame_corrupted d)) (map Data_of_bytes rx).
Proof.
  induction rx as [|block rx IH]; [reflexivity|].
  cbn [flat_map map filter]. unfold published in *.
  rewrite flat_map_app, IH. unfold iteration_calls.
  destruct (frame_corrupted (Data_of_bytes block)); reflexivity.
Qed.

Lemma received_iterations rx : received (flat_map iteration_calls rx) = rx.
Proof.
  induction rx as [|block rx IH]; [reflexivity|].
  cbn [flat_map]. unfold received in *.
  rewrite flat_map_app, IH. unfold iteration_calls.
  destruct (frame_corrupted (Data_of_bytes block)); reflexivity.
Qed.

Lemma filter_Forall {A : Type} (f : A -> bool) (l : list A) :
  Forall (fun a => f a = true) (filter f l).
Proof.
  apply Forall_forall. intros a Ha. apply filter_In in Ha. tauto.
Qed.

(** One iteration on its own: the block is read, handled, and the thread
    blocks in the next read. *)
Lemma run_one_iteration debug dr16 block extra :
  run (5 + extra) [block] (ITree.iter (Thread_Dr16_body debug) dr16) =
  (iteration_calls block, AwaitingFrame).
Proof.
  rewrite (run_loop debug [block] dr16 (5 + extra)) by (cbn [length]; lia).
  cbn [flat_map]. rewrite app_nil_r. reflexivity.
Qed.

(** C2: an iteration hands the frame it has just read to the topic
    exactly once when the validator accepts it and not at all when the
    validator rejects it; over a whole run the frames published are, in
    order, exactly the accepted ones among the frames read, so no
    rejected frame is ever published. *)
Theorem C2_publish_exactly_valid_frames
  (LIBXR_DEBUG_BUILD : bool) (dr16 : DR16) (block : list byte)
  (rx : list (list byte)) (extra : nat) :
  let this := {| data_ := Data_of_bytes block;
                 data_view_ := data_view_ dr16 |} in
  let iteration :=
    run (5 + extra) [block]
        (ITree.iter (Thread_Dr16_body LIBXR_DEBUG_BUILD) dr16) in
  let thread :=
    run (4 * length rx + 2 + extra) rx (Thread_Dr16 LIBXR_DEBUG_BUILD dr16) in
  published (fst iteration) =
    (if fst (DataCorrupted this) then [] else [Data_of_bytes block]) /\
  snd iteration = AwaitingFrame /\
  published (fst thread) =
    filter (fun d => negb (frame_corrupted d)) (map Data_of_bytes rx) /\
  Forall (fun d => frame_corrupted d = false) (published (fst thread)).
Proof.
  cbv zeta.
  rewrite run_one_iteration, run_Thread_Dr16 by lia.
  rewrite DataCorrupted_frame. cbn [fst snd data_].
  assert (Hpub : published (Reset_called :: flat_map iteration_calls rx) =
                 filter (fun d => negb (frame_corrupted d))
                        (map Data_of_bytes rx))
    by apply published_iterations.
  rewrite Hpub.
  repeat split.
  - unfold iteration_calls, published.
    destruct (frame_corrupted (Data_of_bytes block)); reflexivity.
  - eapply Forall_impl; [|apply filter_Forall].
    intros d Hd. apply negb_true_iff in Hd. exact Hd.
Qed.

(** C3: an iteration whose frame the validator rejects resets the read
    port once, then sleeps once for 3, publishes nothing, and is back
    at the loop head for the next frame. *)
Theorem C3_recovery_on_corrupted_frame
  (LIBXR_DEBUG_BUILD : bool) (dr16 : DR16) (block : list byte)
  (rx : list (list byte)) (extra : nat) :
  let this := {| data_ := Data_of_bytes block;
                 data_view_ := data_view_ dr16 |} in
  fst (DataCorrupted this) = true ->
  run (5 + extra) [block]
      (ITree.iter (Thread_Dr16_body LIBXR_DEBUG_BUILD) dr16) =
    ([Read_returned sizeof_Data block; Reset_called; Sleep_called 3],
     AwaitingFrame) /\
  run (4 + extra) (block :: rx)
      (ITree.iter (Thread_Dr16_body LIBXR_DEBUG_BUILD) dr16) =
    (let (calls, st) :=
       run extra rx (ITree.iter (Thread_Dr16_body LIBXR_DEBUG_BUILD) this) in
     (Read_returned sizeof_Data block ::
      Reset_called :: Sleep_called 3 :: calls, st)).
Proof.
  cbv zeta. intros Hbad. split.
  - rewrite run_one_iteration. unfold iteration_calls.
    rewrite DataCorrupted_frame in Hbad. cbn [data_] in Hbad.
    rewrite Hbad. reflexivity.
  - change (4 + extra)%nat with (S (S (S (S extra)))).
    rewrite run_iteration. cbv zeta.
    rewrite Hbad, DataCorrupted_object. reflexivity.
Qed.

Lemma C3_witness :
  fst (DataCorrupted
         {| data_ := Data_of_bytes sample_bad_block;
            data_view_ := data_view_ sample_object |}) = true /\
  run 5 [sample_bad_block]
      (ITree.iter (Thread_Dr16_body false) sample_object) =
    ([Read_returned sizeof_Data sample_bad_block;
      Reset_called; Sleep_called 3], AwaitingFrame).
Proof.
  assert (Hbad : fst (DataCorrupted
         {| data_ := Data_of_bytes sample_bad_block;
            data_view_ := data_view_ sample_object |}) = true)
    by (vm_compute; reflexivity).
  split; [exact Hbad|].
  exact (proj1 (C3_recovery_on_corrupted_frame
                  false sample_object sample_bad_block [] 0 Hbad)).
Defined.

Lemma corrupted_iterations block n :
  frame_corrupted (Data_of_bytes block) = true ->
  flat_map iteration_calls (repeat block n) =
  concat (repeat [Read_returned sizeof_Data block;
                  Reset_called; Sleep_called 3] n).
Proof.
  intros Hbad. induction n as [|n IH]; [reflexivity|].
  cbn [repeat flat_map concat]. rewrite IH.
  unfold iteration_calls. rewrite Hbad. reflexivity.
Qed.

(** C8: the loop has no terminal state. From the loop head, whatever
    the object holds, and from the start of the thread function,
    whatever blocks arrive, every block gets its iteration and the
    thread then blocks in the next read; with no step budget and on no
    input does the thread function return. In particular after any
    number [n] of consecutive corrupted frames the thread has gone
    through [n] recoveries and awaits the next frame. *)
Theorem C8_loop_has_no_terminal_state
  (LIBXR_DEBUG_BUILD : bool) (dr16 : DR16) (rx : list (list byte))
  (extra fuel n : nat) :
  let loop :=
    run (4 * length rx + 1 + extra) rx
        (ITree.iter (Thread_Dr16_body LIBXR_DEBUG_BUILD) dr16) in
  let thread :=
    run (4 * length rx + 2 + extra) rx (Thread_Dr16 LIBXR_DEBUG_BUILD dr16) in
  (received (fst loop) = rx /\ snd loop = AwaitingFrame) /\
  (received (fst thread) = rx /\ snd thread = AwaitingFrame) /\
  snd (run fuel rx (Thread_Dr16 LIBXR_DEBUG_BUILD dr16)) <> Returned /\
  run (4 * n + 2 + extra) (repeat sample_bad_block n)
      (Thread_Dr16 LIBXR_DEBUG_BUILD dr16) =
    (Reset_called ::
     concat (repeat [Read_returned sizeof_Data sample_bad_block;
                     Reset_called; Sleep_called 3] n),
     AwaitingFrame).
Proof.
  cbv zeta.
  rewrite run_loop, run_Thread_Dr16 by lia.
  cbn [fst snd].
  split; [split; [apply received_iterations | reflexivity]|].
  split; [split; [apply received_iterations | reflexivity]|].
  split; [apply Thread_Dr16_never_returns|].
  rewrite run_Thread_Dr16 by (rewrite repeat_length; lia).
  rewrite corrupted_iterations by (vm_compute; reflexivity).
  reflexivity.
Qed.

(** * Further properties *)

(** ** Event codes *)

Lemma Key_value_inj (k k' : Key) : Key_value k = Key_value k' -> k = k'.
Proof.
  destruct k, k'; intros H; try reflexivity; vm_compute in H; discriminate.
Qed.

(** X1: the codes of the switch positions and of the keys form one code
    space without repetition: distinct keys have distinct codes,
    distinct switch positions have distinct codes, and every switch
    position lies below every key code and every combination code. *)
Theorem X1_event_codes_distinct (p p' : SwitchPos) (k k' : Key) (m : modifier) :
  (Key_value k = Key_value k' -> k = k') /\
  (SwitchPos_value p = SwitchPos_value p' -> p = p') /\
  (p <> DR16_SW_POS_NUM -> SwitchPos_value p < event_code m k).
Proof.
  split; [|split].
  - apply Key_value_inj.
  - destruct p, p'; intros H; try reflexivity; vm_compute in H; discriminate.
  - intros Hp.
    destruct (combination_codes k) as (Hs & Hc & Hsc).
    pose proof (Key_value_range k) as Hk.
    assert (Hlt : SwitchPos_value p < 6)
      by (destruct p; try reflexivity; contradiction).
    destruct m; cbn [event_code]; rewrite ?Hs, ?Hc, ?Hsc, ?KEY_NUM_value; lia.
Qed.

Lemma X1_witness :
  KEY_Q = KEY_Q /\
  DR16_SW_R_POS_MID = DR16_SW_R_POS_MID /\
  SwitchPos_value DR16_SW_R_POS_MID < event_code Plain KEY_W.
Proof.
  destruct (X1_event_codes_distinct
              DR16_SW_R_POS_MID DR16_SW_R_POS_MID KEY_Q KEY_Q Plain)
    as (H1 & H2 & _).
  destruct (X1_event_codes_distinct
              DR16_SW_R_POS_MID DR16_SW_R_POS_MID KEY_W KEY_W Plain)
    as (_ & _ & H3).
  split; [exact (H1 eq_refl)|]. split; [exact (H2 eq_refl)|].
  apply H3. discriminate.
Defined.

Lemma event_code_eq (m : modifier) (k : Key) :
  event_code m k = Key_value k + modifier_index m * Key_value KEY_NUM.
Proof.
  destruct (combination_codes k) as (Hs & Hc & Hsc).
  destruct m; cbn [event_code modifier_index]; rewrite ?Hs, ?Hc, ?Hsc; lia.
Qed.

(** X2: a code determines the key and the modifier it was computed
    from: two reports with the same code have the same key and the same
    modifier. *)
Theorem X2_event_code_injective (m m' : modifier) (k k' : Key) :
  event_code m k = event_code m' k' -> m = m' /\ k = k'.
Proof.
  rewrite !event_code_eq, KEY_NUM_value.
  pose proof (Key_value_range k) as Hk.
  pose proof (Key_value_range k') as Hk'.
  intros H.
  assert (Hm : m = m')
    by (destruct m, m'; cbn [modifier_index] in H; try reflexivity; lia).
  subst m'. split; [reflexivity|].
  apply Key_value_inj. lia.
Qed.

Lemma X2_witness :
  event_code WithCtrl KEY_F = event_code WithCtrl KEY_F /\
  WithCtrl = WithCtrl /\ KEY_F = KEY_F.
Proof.
  split; [reflexivity|].
  apply (X2_event_code_injective WithCtrl WithCtrl KEY_F KEY_F).
  reflexivity.
Defined.

(** X3: for a key proper (any enumerator but [KEY_NUM]) the code splits
    back by division: the quotient by the value of [KEY_NUM] is the
    modifier (0 plain, 1 Shift, 2 Ctrl, 3 Shift+Ctrl) and the remainder
    is the key's own code. *)
Theorem X3_event_code_div_mod (m : modifier) (k : Key) :
  In k base_keys ->
  event_code m k / Key_value KEY_NUM = modifier_index m /\
  event_code m k mod Key_value KEY_NUM = Key_value k.
Proof.
  intros Hin.
  assert (Hk : 6 <= Key_value k < 26).
  { unfold base_keys in Hin. cbn [removelast Key_enumerators] in Hin.
    repeat (destruct Hin as [<- | Hin]; [vm_compute; split; [discriminate | reflexivity]|]).
    contradiction. }
  rewrite event_code_eq, KEY_NUM_value.
  assert (Hi : 0 <= modifier_index m) by (destruct m; cbn; lia).
  split.
  - rewrite Z.div_add by lia. rewrite Z.div_small by lia. lia.
  - rewrite Z.mod_add by lia. apply Z.mod_small. lia.
Qed.

Lemma X3_witness :
  In KEY_R_RELEASE base_keys /\
  event_code WithShiftCtrl KEY_R_RELEASE / Key_value KEY_NUM = 3 /\
  event_code WithShiftCtrl KEY_R_RELEASE mod Key_value KEY_NUM = 25.
Proof.
  assert (Hin : In KEY_R_RELEASE base_keys)
    by (vm_compute; repeat (first [left; reflexivity | right])).
  split; [exact Hin|].
  exact (X3_event_code_div_mod WithShiftCtrl KEY_R_RELEASE Hin).
Defined.

(** ** Members and bytes *)

Lemma le_combine_cons (b : byte) (bs : list byte) :
  le_combine (b :: bs) = Z.lor (byte.unsigned b) (Z.shiftl (le_combine bs) 8).
Proof. reflexivity. Qed.

Lemma le_combine_skipn (a : nat) : forall bs,
  le_combine (skipn a bs) = Z.shiftr (le_combine bs) (8 * Z.of_nat a).
Proof.
  induction a as [|a IH]; intros bs.
  - cbn [skipn]. rewrite Z.shiftr_0_r. reflexivity.
  - destruct bs as [|b bs]; cbn [skipn].
    + rewrite le_combine_nil, Z.shiftr_0_l. reflexivity.
    + rewrite IH, le_combine_cons.
      replace (8 * Z.of_nat (S a)) with (8 + 8 * Z.of_nat a) by lia.
      rewrite <- Z.shiftr_shiftr by lia. f_equal.
      rewrite Z.shiftr_lor, Z.shiftr_shiftl_l, Z.sub_diag, Z.shiftl_0_r by lia.
      rewrite Z.shiftr_div_pow2 by lia.
      pose proof (byte.unsigned_range b) as Hb.
      rewrite Z.div_small by exact Hb. reflexivity.
Qed.

(** A byte-aligned range of bits of a block is the number held by the
    bytes it spans. *)
Lemma bits_le_bytes (a n : nat) (bs : list byte) :
  bits (le_combine bs) (8 * Z.of_nat a) (8 * Z.of_nat n) = le_bytes a n bs.
Proof.
  unfold bits, le_bytes.
  rewrite le_combine_firstn, le_combine_skipn, Z.land_ones by lia.
  reflexivity.
Qed.

(** X4: the pointer, button, key and reserved members are whole bytes
    of the block, least significant byte first: [x] is bytes 6-7, [y]
    bytes 8-9, [z] bytes 10-11 (each read as a signed 16-bit number),
    [press_l] is byte 12, [press_r] byte 13, [key] bytes 14-15 and
    [res] bytes 16-17. *)
Theorem X4_byte_aligned_members (bs : list byte) :
  x (Data_of_bytes bs) = as_signed 16 (le_bytes 6 2 bs) /\
  y (Data_of_bytes bs) = as_signed 16 (le_bytes 8 2 bs) /\
  z (Data_of_bytes bs) = as_signed 16 (le_bytes 10 2 bs) /\
  press_l (Data_of_bytes bs) = le_bytes 12 1 bs /\
  press_r (Data_of_bytes bs) = le_bytes 13 1 bs /\
  key (Data_of_bytes bs) = le_bytes 14 2 bs /\
  res (Data_of_bytes bs) = le_bytes 16 2 bs.
Proof.
  rewrite <- !bits_le_bytes. repeat split.
Qed.

(** Bits below [8 * n] of a block are bits of its first [n] bytes. *)
Lemma bits_firstn (n : nat) (bs : list byte) (off len : Z) :
  0 <= off -> 0 <= len -> off + len <= 8 * Z.of_nat n ->
  bits (le_combine (firstn n bs)) off len = bits (le_combine bs) off len.
Proof.
  intros Hoff Hlen Hend.
  rewrite le_combine_firstn.
  apply Z.bits_inj'. intros j Hj.
  rewrite !testbit_bits by lia.
  destruct (Z.ltb_spec j len) as [Hlt | Hge]; cbn [andb]; trivial.
  rewrite Z.testbit_mod_pow2 by lia.
  rewrite (proj2 (Z.ltb_lt (j + off) (8 * Z.of_nat n))) by lia.
  reflexivity.
Qed.

Lemma read_member_firstn (bs : list byte) (m : member) :
  bit_offset m + bit_width m <= 48 ->
  read_member (le_combine (firstn 6 bs)) m = read_member (le_combine bs) m.
Proof.
  intros Hend. unfold read_member.
  pose proof (bit_offset_nonneg m). pose proof (bit_width_pos m).
  rewrite bits_firstn by lia. reflexivity.
Qed.

(** X5: the four channels and the two switches, and with them the
    verdict of the validator, are determined by the first six bytes of
    a block: blocks that agree there are accepted or rejected alike,
    whatever bytes 6 to 17 hold. *)
Theorem X5_verdict_from_first_six_bytes (b1 b2 : list byte) :
  firstn 6 b1 = firstn 6 b2 ->
  ch_r_x (Data_of_bytes b1) = ch_r_x (Data_of_bytes b2) /\
  ch_r_y (Data_of_bytes b1) = ch_r_y (Data_of_bytes b2) /\
  ch_l_x (Data_of_bytes b1) = ch_l_x (Data_of_bytes b2) /\
  ch_l_y (Data_of_bytes b1) = ch_l_y (Data_of_bytes b2) /\
  sw_r (Data_of_bytes b1) = sw_r (Data_of_bytes b2) /\
  sw_l (Data_of_bytes b1) = sw_l (Data_of_bytes b2) /\
  frame_corrupted (Data_of_bytes b1) = frame_corrupted (Data_of_bytes b2).
Proof.
  intros H6.
  assert (Hm : forall m, bit_offset m + bit_width m <= 48 ->
                 member_value (Data_of_bytes b1) m =
                 member_value (Data_of_bytes b2) m).
  { intros m Hend. rewrite !member_value_of_bytes.
    rewrite <- (read_member_firstn b1), <- (read_member_firstn b2), H6
      by exact Hend.
    reflexivity. }
  pose proof (Hm m_ch_r_x ltac:(vm_compute; discriminate)) as H1.
  pose proof (Hm m_ch_r_y ltac:(vm_compute; discriminate)) as H2.
  pose proof (Hm m_ch_l_x ltac:(vm_compute; discriminate)) as H3.
  pose proof (Hm m_ch_l_y ltac:(vm_compute; discriminate)) as H4.
  pose proof (Hm m_sw_r ltac:(vm_compute; discriminate)) as H5.
  pose proof (Hm m_sw_l ltac:(vm_compute; discriminate)) as H7.
  cbn [member_value] in *.
  repeat split; trivial.
  unfold frame_corrupted. rewrite !DataCorrupted_verdict. cbn [data_].
  rewrite H1, H2, H3, H4, H5, H7. reflexivity.
Qed.

Lemma X5_witness :
  sample_block <> sample_block' /\
  Data_of_bytes sample_block' = sample_frame' /\
  frame_corrupted (Data_of_bytes sample_block) =
  frame_corrupted (Data_of_bytes sample_block').
Proof.
  split; [discriminate|]. split; [vm_compute; reflexivity|].
  apply (X5_verdict_from_first_six_bytes sample_block sample_block').
  reflexivity.
Defined.

(** ** The calls of the acquisition thread *)

(** X6: the complete sequence of calls of the thread on the blocks
    [rx]: one reset of the read port, then for every block in turn a
    read of 18 bytes followed either by reset and a sleep of 3, when the
    frame is rejected, or by the publication of the frame, when it is
    accepted; nothing else is ever called. *)
Theorem X6_call_sequence
  (LIBXR_DEBUG_BUILD : bool) (dr16 : DR16) (rx : list (list byte))
  (extra : nat) :
  fst (run (4 * length rx + 2 + extra) rx (Thread_Dr16 LIBXR_DEBUG_BUILD dr16)) =
  Reset_called ::
  flat_map (fun block =>
              Read_returned 18 block ::
              (if frame_corrupted (Data_of_bytes block)
               then [Reset_called; Sleep_called 3]
               else [Publish_called (Data_of_bytes block)])) rx.
Proof.
  rewrite run_Thread_Dr16 by lia. reflexivity.
Qed.

Lemma reset_count_iterations rx :
  reset_count (flat_map iteration_calls rx) = length (rejected rx).
Proof.
  unfold reset_count, rejected.
  induction rx as [|block rx IH]; [reflexivity|].
  cbn [flat_map map filter]. rewrite filter_app, length_app, IH.
  unfold iteration_calls.
  destruct (frame_corrupted (Data_of_bytes block)); reflexivity.
Qed.

Lemma total_sleep_iterations rx :
  total_sleep (flat_map iteration_calls rx) = 3 * Z.of_nat (length (rejected rx)).
Proof.
  unfold rejected.
  induction rx as [|block rx IH]; [reflexivity|].
  cbn [flat_map map filter]. unfold iteration_calls at 1.
  destruct (frame_corrupted (Data_of_bytes block));
    cbn [app total_sleep fold_right length]; fold (total_sleep (flat_map iteration_calls rx));
    rewrite IH; lia.
Qed.

Lemma accepted_rejected_length rx :
  (length (accepted rx) + length (rejected rx) = length rx)%nat.
Proof.
  unfold accepted, rejected.
  induction rx as [|block rx IH]; [reflexivity|].
  cbn [map filter].
  destruct (frame_corrupted (Data_of_bytes block)); cbn [negb length]; lia.
Qed.

(** X7: the cost of a stream in calls: the read port is reset once at
    the start and once more per rejected frame, the thread sleeps 3 per
    rejected frame and not otherwise, and every block read is either
    published or recovered from. *)
Theorem X7_call_counts
  (LIBXR_DEBUG_BUILD : bool) (dr16 : DR16) (rx : list (list byte))
  (extra : nat) :
  let calls :=
    fst (run (4 * length rx + 2 + extra) rx
             (Thread_Dr16 LIBXR_DEBUG_BUILD dr16)) in
  reset_count calls = S (length (rejected rx)) /\
  total_sleep calls = 3 * Z.of_nat (length (rejected rx)) /\
  length (published calls) = length (accepted rx) /\
  (length (published calls) + length (rejected rx) = length rx)%nat.
Proof.
  cbv zeta. rewrite run_Thread_Dr16 by lia. cbn [fst].
  assert (Hpub : published (Reset_called :: flat_map iteration_calls rx) =
                 accepted rx) by apply published_iterations.
  rewrite Hpub.
  split; [|split; [|split]].
  - change (reset_count (Reset_called :: flat_map iteration_calls rx))
      with (S (reset_count (flat_map iteration_calls rx))).
    rewrite reset_count_iterations. reflexivity.
  - change (total_sleep (Reset_called :: flat_map iteration_calls rx))
      with (total_sleep (flat_map iteration_calls rx)).
    apply total_sleep_iterations.
  - reflexivity.
  - apply accepted_rejected_length.
Qed.

Ltac rewrite_run_IH IH f rx :=
  match goal with
  | |- context [run f rx (ITree.iter (Thread_Dr16_body ?d1) ?a)] =>
    match goal with
    | |- _ = ?rhs =>
      match rhs with
      | context [run f rx (ITree.iter (Thread_Dr16_body ?d2) ?b)] =>
          rewrite (IH f ltac:(lia) rx d1 d2 a b)
      end
    end
  end.

(** From the loop head the calls do not depend on the object or on the
    build, whatever the step budget. *)
Lemma run_iter_irrelevant (fuel : nat) :
  forall rx db1 db2 o1 o2,
  run fuel rx (ITree.iter (Thread_Dr16_body db1) o1) =
  run fuel rx (ITree.iter (Thread_Dr16_body db2) o2).
Proof.
  induction fuel as [fuel IH] using lt_wf_ind.
  intros rx db1 db2 o1 o2.
  destruct fuel as [|f]; [reflexivity|].
  destruct rx as [|block rx]; [reflexivity|].
  rewrite !run_step. cbn. rewrite !run_bind_ret. cbv beta.
  pose proof (DataCorrupted_frame
                {| data_ := Data_of_bytes block; data_view_ := data_view_ o1 |}) as V1.
  pose proof (DataCorrupted_frame
                {| data_ := Data_of_bytes block; data_view_ := data_view_ o2 |}) as V2.
  pose proof (DataCorrupted_object
                {| data_ := Data_of_bytes block; data_view_ := data_view_ o1 |}) as O1.
  pose proof (DataCorrupted_object
                {| data_ := Data_of_bytes block; data_view_ := data_view_ o2 |}) as O2.
  cbn [data_] in V1, V2.
  destruct (DataCorrupted
              {| data_ := Data_of_bytes block; data_view_ := data_view_ o1 |})
    as [c1 t1].
  destruct (DataCorrupted
              {| data_ := Data_of_bytes block; data_view_ := data_view_ o2 |})
    as [c2 t2].
  cbn [fst snd] in *. subst t1 t2 c1 c2.
  destruct (frame_corrupted (Data_of_bytes block)).
  - destruct f as [|[|[|f]]].
    + reflexivity.
    + rewrite !run_step. cbn. reflexivity.
    + rewrite !run_step. cbn. rewrite !run_step. cbn. reflexivity.
    + rewrite !run_step. cbn. rewrite !run_step. cbn. rewrite !run_step. cbn.
      rewrite_run_IH IH f rx. reflexivity.
  - destruct db1, db2; cbn;
      (destruct f as [|[|f]];
       [ reflexivity
       | rewrite !run_step; cbn; reflexivity
       | rewrite !run_step; cbn; rewrite !run_step; cbn;
         try reflexivity; rewrite_run_IH IH f rx; reflexivity ]).
Qed.

(** X8: what the thread calls, and in which order, depends on the
    blocks received only: not on what the object held when the thread
    started (the constructor leaves [data_] uninitialised) and not on
    whether the debug view is compiled in. This holds for every step
    budget, so also for every prefix of a run. *)
Theorem X8_calls_independent_of_object_and_build
  (debug1 debug2 : bool) (dr16_1 dr16_2 : DR16) (rx : list (list byte))
  (fuel : nat) :
  run fuel rx (Thread_Dr16 debug1 dr16_1) =
  run fuel rx (Thread_Dr16 debug2 dr16_2).
Proof.
  destruct fuel as [|fuel]; [reflexivity|].
  unfold Thread_Dr16. rewrite !run_step. cbn.
  rewrite !run_subst_ret.
  rewrite (run_iter_irrelevant fuel rx debug1 debug2 dr16_1 dr16_2).
  reflexivity.
Qed.

(** ** The object across iterations *)







(** ** What consumers receive *)

(** X11: every frame the thread publishes has its four channels within
    364..1684 and both switches within 1..3, and its pointer, button,
    key and reserved members within the ranges of their types. *)
Theorem X11_published_frames_in_range
  (LIBXR_DEBUG_BUILD : bool) (dr16 : DR16) (rx : list (list byte))
  (extra : nat) :
  Forall published_frame_ok
    (published
       (fst (run (4 * length rx + 2 + extra) rx
                 (Thread_Dr16 LIBXR_DEBUG_BUILD dr16)))).
Proof.
  rewrite run_Thread_Dr16 by lia. cbn [fst].
  assert (Hpub : published (Reset_called :: flat_map iteration_calls rx) =
                 accepted rx) by apply published_iterations.
  rewrite Hpub. unfold accepted.
  apply Forall_forall. intros d Hd.
  apply filter_In in Hd. destruct Hd as [Hin Hok].
  apply in_map_iff in Hin. destruct Hin as (block & <- & _).
  apply negb_true_iff in Hok.
  unfold frame_corrupted in Hok. rewrite DataCorrupted_verdict in Hok.
  cbn [data_] in Hok.
  unfold DR16_CH_VALUE_MIN, DR16_CH_VALUE_MAX in Hok.
  revert Hok. to_Prop. intros Hok.
  pose proof (Data_of_bytes_wf block) as Hwf.
  pose proof (Hwf m_sw_r) as Hsr. pose proof (Hwf m_sw_l) as Hsl.
  pose proof (Hwf m_x) as Hx. pose proof (Hwf m_y) as Hy.
  pose proof (Hwf m_z) as Hz.
  pose proof (Hwf m_press_l) as Hpl. pose proof (Hwf m_press_r) as Hpr.
  pose proof (Hwf m_key) as Hkey. pose proof (Hwf m_res) as Hres.
  unfold member_range in *.
  change (is_signed m_sw_r) with false in Hsr.
  change (is_signed m_sw_l) with false in Hsl.
  change (is_signed m_x) with true in Hx.
  change (is_signed m_y) with true in Hy.
  change (is_signed m_z) with true in Hz.
  change (is_signed m_press_l) with false in Hpl.
  change (is_signed m_press_r) with false in Hpr.
  change (is_signed m_key) with false in Hkey.
  change (is_signed m_res) with false in Hres.
  change (bit_width m_sw_r) with 2 in Hsr.
  change (bit_width m_sw_l) with 2 in Hsl.
  change (bit_width m_x) with 16 in Hx.
  change (bit_width m_y) with 16 in Hy.
  change (bit_width m_z) with 16 in Hz.
  change (bit_width m_press_l) with 8 in Hpl.
  change (bit_width m_press_r) with 8 in Hpr.
  change (bit_width m_key) with 16 in Hkey.
  change (bit_width m_res) with 16 in Hres.
  cbn [member_value] in *.
  unfold published_frame_ok. lia.
Qed.

(** ** Channels and switches in the first six bytes *)

(** A range of bits that lies within the [n] bytes from byte [a] on can
    be read from those bytes alone. *)
Lemma bits_window (a n : nat) (bs : list byte) (off len : Z) :
  8 * Z.of_nat a <= off -> 0 <= len ->
  off + len <= 8 * Z.of_nat a + 8 * Z.of_nat n ->
  bits (le_combine bs) off len =
  bits (le_bytes a n bs) (off - 8 * Z.of_nat a) len.
Proof.
  intros Hlo Hlen Hhi. unfold le_bytes.
  rewrite le_combine_firstn, le_combine_skipn.
  apply Z.bits_inj'. intros j Hj.
  rewrite !testbit_bits by lia.
  destruct (Z.ltb_spec j len) as [Hlt | Hge]; cbn [andb]; trivial.
  rewrite Z.testbit_mod_pow2 by lia.
  rewrite (proj2 (Z.ltb_lt (j + (off - 8 * Z.of_nat a)) (8 * Z.of_nat n)))
    by lia.
  cbn [andb]. rewrite Z.shiftr_spec by lia. f_equal. lia.
Qed.

(** X12: where the bit-fields lie in the bytes of a block: [ch_r_x] is
    the low 11 bits of bytes 0-1, [ch_r_y] the 11 bits from bit 3 of
    bytes 1-2, [ch_l_x] the 11 bits from bit 6 of bytes 2-4, [ch_l_y]
    the 11 bits from bit 1 of bytes 4-5, and the switches are bits 4-5
    ([sw_r]) and bits 6-7 ([sw_l]) of byte 5. *)
Theorem X12_bit_fields_in_bytes (bs : list byte) :
  ch_r_x (Data_of_bytes bs) = bits (le_bytes 0 2 bs) 0 11 /\
  ch_r_y (Data_of_bytes bs) = bits (le_bytes 1 2 bs) 3 11 /\
  ch_l_x (Data_of_bytes bs) = bits (le_bytes 2 3 bs) 6 11 /\
  ch_l_y (Data_of_bytes bs) = bits (le_bytes 4 2 bs) 1 11 /\
  sw_r (Data_of_bytes bs) = bits (le_bytes 5 1 bs) 4 2 /\
  sw_l (Data_of_bytes bs) = bits (le_bytes 5 1 bs) 6 2.
Proof.
  repeat split.
  - exact (bits_window 0 2 bs 0 11 ltac:(lia) ltac:(lia) ltac:(lia)).
  - exact (bits_window 1 2 bs 11 11 ltac:(lia) ltac:(lia) ltac:(lia)).
  - exact (bits_window 2 3 bs 22 11 ltac:(lia) ltac:(lia) ltac:(lia)).
  - exact (bits_window 4 2 bs 33 11 ltac:(lia) ltac:(lia) ltac:(lia)).
  - exact (bits_window 5 1 bs 44 2 ltac:(lia) ltac:(lia) ltac:(lia)).
  - exact (bits_window 5 1 bs 46 2 ltac:(lia) ltac:(lia) ltac:(lia)).
Qed.

(** ** The debug view *)

(** X13: [DataviewToData] leaves the data as it is, overwrites the view
    whatever it held, and loses nothing: frames with the same view are
    the same frame. *)
Theorem X13_DataviewToData_lossless
  (view view' : DataView.t) (d d' : Data) :
  snd (DataviewToData view d) = d /\
  fst (DataviewToData view d) = fst (DataviewToData view' d) /\
  (fst (DataviewToData view d) = fst (DataviewToData view' d') -> d = d').
Proof.
  split; [reflexivity|]. split; [reflexivity|].
  destruct d, d'. unfold DataviewToData. cbn.
  intros H. injection H as -> -> -> -> -> -> -> -> -> -> -> -> ->.
  reflexivity.
Qed.

Lemma X13_witness :
  fst (DataviewToData zero_view sample_frame) =
  fst (DataviewToData (view_of sample_bad_frame) sample_frame) /\
  sample_frame = sample_frame.
Proof.
  assert (H : fst (DataviewToData zero_view sample_frame) =
              fst (DataviewToData (view_of sample_bad_frame) sample_frame))
    by reflexivity.
  split; [exact H|].
  exact (proj2 (proj2 (X13_DataviewToData_lossless
                         zero_view (view_of sample_bad_frame)
                         sample_frame sample_frame)) H).
Defined.
